(** * AurumV1: a reverse-proxy Web Application Firewall and its admin console

    The development embeds, as Rocq functions, the React admin console that
    the repository ships (AuthContext.js, App.js, Dashboard.js,
    SecurityLogs.js, DomainManagement.js) and
    the request pipeline the console talks to (domain registry, rule engine,
    rate limiter, security log sink).  The console is translated from its
    JavaScript source.  The pipeline is a FastAPI service whose source is not
    part of the tree: every definition of it is introduced by a comment that
    starts with "Modelled from the spec:" and follows the wording of the
    specification.

    Part I holds the definitions, Part II the theorems. *)

From Stdlib Require Import ZArith List Bool Ascii Lia.
From Stdlib Require Import Floats.SpecFloat.
From stdpp Require Import base list gmap strings.

Import ListNotations.
Local Open Scope Z_scope.

(* ===================================================================== *)
(** * Part I: definitions                                                 *)
(* ===================================================================== *)

(** ** JavaScript values used by the console *)

Module Js.

(** ASCII case folding, as [String.prototype.toLowerCase] acts on the
    ASCII range (the reason names and host names of this program). *)
Definition lower_ascii (c : ascii) : ascii :=
  let n := nat_of_ascii c in
  if ((65 <=? n)%nat && (n <=? 90)%nat)%bool then ascii_of_nat (n + 32) else c.

Fixpoint toLowerCase (s : string) : string :=
  match s with
  | EmptyString => EmptyString
  | String c r => String (lower_ascii c) (toLowerCase r)
  end.

(** [s.includes(p)]: [p] occurs in [s] as a contiguous substring. *)
Fixpoint includes (p s : string) : bool :=
  if String.prefix p s then true
  else match s with
       | EmptyString => false
       | String _ r => includes p r
       end.

(** [s.endsWith(p)]. *)
Fixpoint endsWith (p s : string) : bool :=
  if String.eqb p s then true
  else match s with
       | EmptyString => false
       | String _ r => endsWith p r
       end.

(** An IEEE 754 binary64 number, the only number type of JavaScript. *)
Definition number : Type := spec_float.

Definition prec : Z := 53.
Definition emax : Z := 1024.

Definition num_div (x y : number) : number := SFdiv prec emax x y.
Definition num_mul (x y : number) : number := SFmul prec emax x y.
(** [x > y] is evaluated as [y < x]; it is false when either side is NaN. *)
Definition num_gt (x y : number) : bool := SFltb y x.

Definition num_of_Z (z : Z) : number := binary_normalize prec emax z 0 false.

#[global] Arguments num_div : simpl never.
#[global] Arguments num_mul : simpl never.
#[global] Arguments num_gt : simpl never.
#[global] Arguments num_of_Z : simpl never.

Definition zero : number := S754_zero false.
Definition hundred : number := Eval vm_compute in num_of_Z 100.

(** The values a JSON field read through [?.] can take in this program. *)
Inductive value : Type :=
| Undefined
| Null
| Num (x : number).

(** ToNumber. *)
Definition to_number (v : value) : number :=
  match v with
  | Undefined => S754_nan
  | Null => zero
  | Num x => x
  end.

(** ToBoolean on a number: false for +0, -0 and NaN. *)
Definition num_truthy (x : number) : bool :=
  match x with
  | S754_zero _ | S754_nan => false
  | _ => true
  end.

Definition truthy (v : value) : bool :=
  match v with
  | Undefined | Null => false
  | Num x => num_truthy x
  end.

(** ToBoolean on a string (or null): false for null and for the empty string. *)
Definition str_truthy (v : option string) : bool :=
  match v with
  | Some s => negb (String.eqb s "")
  | None => false
  end.

(** [v || 0]. *)
Definition or_zero (v : value) : value :=
  if truthy v then v else Num zero.

End Js.

(** ** frontend/src/contexts/AuthContext.js *)

Module AuthContext.

(** The three [useState] cells of [AuthProvider]; [token] is [null] or a
    string. *)
Record AuthState : Type := mkAuth {
  isAuthenticated : bool;
  isLoading : bool;
  token : option string
}.

(** [window.localStorage], a string-keyed store of strings. *)
Abbreviation Storage := (gmap string string).

Definition getItem (k : string) (ls : Storage) : option string := ls !! k.
Definition setItem (k v : string) (ls : Storage) : Storage := <[k := v]> ls.
Definition removeItem (k : string) (ls : Storage) : Storage := delete k ls.

Definition waf_token : string := "waf_token".

(** State on first render: [useState(false)], [useState(true)],
    [useState(null)]. *)
Definition initial : AuthState :=
  {| isAuthenticated := false; isLoading := true; token := None |}.

(** The mount effect (lines 19-26): reads the stored token and, when it is
    truthy, adopts it.  Nothing but [localStorage] is consulted. *)
Definition load (ls : Storage) (st : AuthState) : AuthState :=
  let storedToken := getItem waf_token ls in
  let st1 :=
    if Js.str_truthy storedToken
    then {| isAuthenticated := true; isLoading := isLoading st; token := storedToken |}
    else st in
  {| isAuthenticated := isAuthenticated st1; isLoading := false; token := token st1 |}.

(** What [axios.post('/admin/login', { password })] resolves or rejects
    with.  A fulfilled reply carries the bearer token, a string; a rejected
    one may carry [error.response.data.detail]. *)
Inductive LoginReply : Type :=
| LoginOk (access_token : string)
| LoginRejected (detail : option string).

Record LoginResult : Type := mkLoginResult {
  success : bool;
  error : option string
}.

(** [login] (lines 28-44), given the reply of the server. *)
Definition login (reply : LoginReply) (ls : Storage) (st : AuthState)
  : Storage * AuthState * LoginResult :=
  match reply with
  | LoginOk access_token =>
      (setItem waf_token access_token ls,
       {| isAuthenticated := true; isLoading := isLoading st; token := Some access_token |},
       {| success := true; error := None |})
  | LoginRejected detail =>
      (ls, st,
       {| success := false;
          error := Some (if Js.str_truthy detail
                         then default "Login failed" detail
                         else "Login failed") |})
  end.

(** [logout] (lines 46-50). *)
Definition logout (ls : Storage) (st : AuthState) : Storage * AuthState :=
  (removeItem waf_token ls,
   {| isAuthenticated := false; isLoading := isLoading st; token := None |}).

(** The state invariant: authenticated exactly when a token is held. *)
Definition consistent (st : AuthState) : Prop :=
  isAuthenticated st = true <-> token st <> None.

End AuthContext.

(** ** frontend/src/components/Dashboard.js *)

Module Dashboard.
Import Js.

(** One row of [stats.top_attack_types]. *)
Record AttackRow : Type := mkAttackRow {
  type : string;
  count : value
}.

(** The JSON object answered by [GET /admin/stats], as the component reads
    it.  A field that is absent reads as [Undefined]. *)
Record Stats : Type := mkStats {
  total_domains : value;
  active_domains : value;
  total_requests : value;
  blocked_requests : value;
  recent_attacks : value;
  top_attack_types : option (list AttackRow)
}.

(** [stats?.f]: [undefined] when [stats] itself is [undefined]. *)
Definition opt_get (f : Stats -> value) (stats : option Stats) : value :=
  match stats with
  | Some s => f s
  | None => Undefined
  end.

(** [stats.f]: a TypeError ([None]) when [stats] is [undefined]. *)
Definition get (f : Stats -> value) (stats : option Stats) : option value :=
  f <$> stats.

(** [statCards] (lines 52-88): name and value of the five cards. *)
Definition statCards (stats : option Stats) : list (string * value) :=
  [ ("Total Domains", or_zero (opt_get total_domains stats));
    ("Active Domains", or_zero (opt_get active_domains stats));
    ("Total Requests", or_zero (opt_get total_requests stats));
    ("Blocked Requests", or_zero (opt_get blocked_requests stats));
    ("Recent Attacks (24h)", or_zero (opt_get recent_attacks stats)) ].

(** The rows of the "Top Attack Types" card (lines 151-174): rendered only
    when the list is present and not empty. *)
Definition topAttackRows (stats : option Stats) : list AttackRow :=
  match stats with
  | Some s => default [] (top_attack_types s)
  | None => []
  end.

(** A string produced by the component: literal text, or the result of
    Number::toString on a number of magnitude at least 10^21, which
    [toFixed] delegates to and which is left symbolic. *)
Inductive text : Type :=
| Text (s : string)
| NumberToString (x : number).

Definition digit (d : Z) : string :=
  String (ascii_of_nat (48 + Z.to_nat d)) EmptyString.

(** Decimal digits of a non-negative integer, most significant first; the
    recursion is on the binary size of the argument, which bounds the number
    of decimal digits. *)
Fixpoint digits_fuel (fuel : nat) (n : Z) : string :=
  match fuel with
  | O => digit (n mod 10)
  | S k => if n <? 10 then digit n
           else digits_fuel k (n / 10) +:+ digit (n mod 10)
  end.

Definition digits (n : Z) : string := digits_fuel (Z.to_nat (Z.log2 n)) n.

(** The integer nearest to [100 * m * 2^e], the larger one on a tie
    (step 10.a of Number.prototype.toFixed with two fraction digits). *)
Definition round_hundredths (m : positive) (e : Z) : Z :=
  match e with
  | Zneg p => (200 * Zpos m + 2 ^ Zpos p) / 2 ^ (Zpos p + 1)
  | _ => 100 * Zpos m * 2 ^ e
  end.

(** [m * 2^e >= 10^21]. *)
Definition at_least_1e21 (m : positive) (e : Z) : bool :=
  match e with
  | Zneg p => 10 ^ 21 * 2 ^ Zpos p <=? Zpos m
  | _ => 10 ^ 21 <=? Zpos m * 2 ^ e
  end.

(** The digits of [n / 100] with two decimals. *)
Definition fixed2 (n : Z) : string :=
  digits (n / 100) +:+ "." +:+ digit (n mod 100 / 10) +:+ digit (n mod 10).

(** [x.toFixed(2)]. *)
Definition toFixed2 (x : number) : text :=
  match x with
  | S754_nan => Text "NaN"
  | S754_infinity s => Text (if s then "-Infinity" else "Infinity")
  | S754_zero _ => Text "0.00"
  | S754_finite s m e =>
      if at_least_1e21 m e then NumberToString x
      else Text ((if s then "-" else "") +:+ fixed2 (round_hundredths m e))
  end.

(** The value of [blockRate]: the number [0] or a string. *)
Inductive rate : Type :=
| RateNumber (x : number)
| RateText (t : text).

(** [blockRate] (lines 90-92).  [None] stands for the TypeError that reading
    a field of [undefined] raises. *)
Definition blockRate (stats : option Stats) : option rate :=
  if num_gt (to_number (opt_get total_requests stats)) zero
  then
    blocked ← get blocked_requests stats;
    total ← get total_requests stats;
    Some (RateText (toFixed2
            (num_mul (num_div (to_number blocked) (to_number total)) hundred)))
  else Some (RateNumber zero).

(** The operands of the division of line 91 when it is evaluated. *)
Definition blockRate_division (stats : option Stats) : option (number * number) :=
  if num_gt (to_number (opt_get total_requests stats)) zero
  then
    blocked ← get blocked_requests stats;
    total ← get total_requests stats;
    Some (to_number blocked, to_number total)
  else None.

(** [n] is the integer nearest to [100 * m * 2^e], the larger of the two on
    a tie: [-1/2 < n - 100 * m * 2^e <= 1/2], denominators cleared. *)
Definition nearest_hundredth (m : positive) (e n : Z) : Prop :=
  let scaled := 2 * n * 2 ^ Z.max 0 (- e) - 200 * Zpos m * 2 ^ Z.max 0 e in
  - 2 ^ Z.max 0 (- e) < scaled <= 2 ^ Z.max 0 (- e).

(** Reading a string of decimal digits back, most significant digit first. *)
Fixpoint decimal_value_from (acc : Z) (s : string) : option Z :=
  match s with
  | EmptyString => Some acc
  | String c r =>
      let d := Z.of_nat (nat_of_ascii c) - 48 in
      if (0 <=? d) && (d <=? 9) then decimal_value_from (10 * acc + d) r else None
  end.

(** A stats object whose counters are the given integers. *)
Definition stats_of_counts (domains active total blocked recent : Z)
  (top : list (string * Z)) : Stats :=
  {| total_domains := Num (num_of_Z domains);
     active_domains := Num (num_of_Z active);
     total_requests := Num (num_of_Z total);
     blocked_requests := Num (num_of_Z blocked);
     recent_attacks := Num (num_of_Z recent);
     top_attack_types :=
       Some (map (fun p => {| type := fst p; count := Num (num_of_Z (snd p)) |}) top) |}.

End Dashboard.

(** ** frontend/src/components/SecurityLogs.js *)

Module SecurityLogs.

(** The [value] attributes of the options of the "Filter by Reason" select
    (lines 134-142), in document order. *)
Definition filterReasonOptions : list string :=
  [ "";
    "SQL Injection";
    "XSS Attack";
    "Command Injection";
    "Path Traversal";
    "Suspicious Header";
    "Blocked File Extension";
    "Malformed Request";
    "Suspicious User Agent" ].

(** [getReasonColor] (lines 58-79). *)
Definition getReasonColor (reason : string) : string :=
  let r := Js.toLowerCase reason in
  if String.eqb r "sql injection" then "text-red-600 bg-red-100"
  else if String.eqb r "xss attack" then "text-orange-600 bg-orange-100"
  else if String.eqb r "command injection" then "text-purple-600 bg-purple-100"
  else if String.eqb r "path traversal" then "text-blue-600 bg-blue-100"
  else if String.eqb r "suspicious header" then "text-yellow-600 bg-yellow-100"
  else if String.eqb r "blocked file extension" then "text-indigo-600 bg-indigo-100"
  else if String.eqb r "malformed request" then "text-pink-600 bg-pink-100"
  else if String.eqb r "suspicious user agent" then "text-gray-600 bg-gray-100"
  else "text-gray-600 bg-gray-100".

(** The query parameters of [GET /admin/logs] (lines 24-26): each of the two
    is appended only when its state cell is a non-empty string. *)
Definition logsQueryParams (searchTerm filterReason : string) : list (string * string) :=
  (if Js.str_truthy (Some searchTerm) then [("search", searchTerm)] else []) ++
  (if Js.str_truthy (Some filterReason) then [("reason", filterReason)] else []).

(** A reason can be selected in the console when it is the value of one of
    the options. *)
Definition selectable (reason : string) : Prop := In reason filterReasonOptions.

End SecurityLogs.

(** ** App.js: what the visitor is shown *)

Module App.
Import AuthContext.

(** The three things [AppContent] (lines 15-40) can return. *)
Inductive Screen : Type :=
| Spinner
| LoginScreen
| ProtectedRoutes.

Definition AppContent (st : AuthState) : Screen :=
  if isLoading st then Spinner
  else if negb (isAuthenticated st) then LoginScreen
  else ProtectedRoutes.

(** What happens to the provider during a visit: its mount effect runs, a
    login attempt is answered by the server, the visitor logs out. *)
Inductive Event : Type :=
| Mount
| LoginAttempt (reply : LoginReply)
| Logout.

Definition is_mount (e : Event) : bool :=
  match e with
  | Mount => true
  | _ => false
  end.

Definition react (e : Event) (cfg : Storage * AuthState) : Storage * AuthState :=
  match e with
  | Mount => (cfg.1, load cfg.1 cfg.2)
  | LoginAttempt reply => (login reply cfg.1 cfg.2).1
  | Logout => logout cfg.1 cfg.2
  end.

(** A visit: the provider starts in its first-render state over the
    browser's storage and goes through the events in order. *)
Definition visit (events : list Event) (ls : Storage) : Storage * AuthState :=
  foldl (fun cfg e => react e cfg) (ls, initial) events.

(** The token held in memory is the one kept in [localStorage]. *)
Definition coherent (cfg : Storage * AuthState) : Prop :=
  forall tok, token cfg.2 = Some tok -> getItem waf_token cfg.1 = Some tok.

End App.

(** ** The query string of the log request *)

Module URLSearchParams.

(** A byte the application/x-www-form-urlencoded serializer leaves as it
    is: an ASCII letter or digit, or one of [*-._]. *)
Definition unreserved (c : ascii) : bool :=
  let n := nat_of_ascii c in
  ((48 <=? n) && (n <=? 57) || (65 <=? n) && (n <=? 90) || (97 <=? n) && (n <=? 122)
   || (n =? 42) || (n =? 45) || (n =? 46) || (n =? 95))%nat.

Definition hex_digit (n : nat) : ascii :=
  if (n <? 10)%nat then ascii_of_nat (48 + n) else ascii_of_nat (55 + n).

(** One byte of the UTF-8 form of a name or value: kept, turned into [+]
    when it is a space, or percent-encoded with upper-case digits. *)
Definition encode_byte (c : ascii) : string :=
  if unreserved c then String c EmptyString
  else if (nat_of_ascii c =? 32)%nat then "+"
  else String "%" (String (hex_digit (nat_of_ascii c / 16))
                    (String (hex_digit (nat_of_ascii c mod 16)) EmptyString)).

Fixpoint encode (s : string) : string :=
  match s with
  | EmptyString => EmptyString
  | String c r => encode_byte c +:+ encode r
  end.

(** [params.toString()]: the pairs as [name=value], joined by [&]. *)
Fixpoint toString (params : list (string * string)) : string :=
  match params with
  | [] => ""
  | [(k, v)] => encode k +:+ "=" +:+ encode v
  | (k, v) :: rest => encode k +:+ "=" +:+ encode v +:+ "&" +:+ toString rest
  end.

(** How often a character occurs in a string. *)
Fixpoint occurrences (c : ascii) (s : string) : nat :=
  match s with
  | EmptyString => 0
  | String d r => ((if Ascii.eqb c d then 1 else 0) + occurrences c r)%nat
  end.

(** Every character of the string satisfies [p]. *)
Fixpoint all_chars (p : ascii -> bool) (s : string) : bool :=
  match s with
  | EmptyString => true
  | String d r => p d && all_chars p r
  end.

(** A character the serializer may emit for a byte of a name or a value:
    an unreserved character, [+] or [%]. *)
Definition emitted (c : ascii) : bool :=
  unreserved c || Ascii.eqb c "+" || Ascii.eqb c "%".

End URLSearchParams.

(** ** More of frontend/src/components/SecurityLogs.js *)

Module LogsView.
Import SecurityLogs.

(** The URL requested by the query function (line 28). *)
Definition logsUrl (searchTerm filterReason : string) : string :=
  "/admin/logs?" +:+ URLSearchParams.toString (logsQueryParams searchTerm filterReason).

(** The classes of the [default] branch of [getReasonColor]. *)
Definition defaultColor : string := "text-gray-600 bg-gray-100".

(** The reasons [getReasonColor] gives a colour of their own, as its
    [case] labels spell them. *)
Definition colouredReasons : list string :=
  [ "sql injection"; "xss attack"; "command injection"; "path traversal";
    "suspicious header"; "blocked file extension"; "malformed request" ].

(** Every character of the string is in the ASCII range, where
    [Js.toLowerCase] is [String.prototype.toLowerCase]. *)
Fixpoint is_ascii (s : string) : bool :=
  match s with
  | EmptyString => true
  | String c r => (nat_of_ascii c <? 128)%nat && is_ascii r
  end.

End LogsView.

(** ** frontend/src/components/DomainManagement.js *)

Module DomainManagement.

(** A JSON value held by a domain row or by the form; [Absent] is
    [undefined]. *)
Inductive field : Type :=
| Absent
| JNull
| JBool (b : bool)
| JNum (x : Js.number)
| JStr (s : string).

(** ToBoolean. *)
Definition truthy (v : field) : bool :=
  match v with
  | Absent | JNull => false
  | JBool b => b
  | JNum x => Js.num_truthy x
  | JStr s => negb (String.eqb s "")
  end.

(** [a || b]. *)
Definition or (a b : field) : field := if truthy a then a else b.

(** [a ?? b]. *)
Definition coalesce (a b : field) : field :=
  match a with
  | Absent | JNull => b
  | _ => a
  end.

(** A JavaScript object with string keys. *)
Abbreviation Object := (gmap string field).

(** [obj?.k]: [undefined] when the object is missing or has no such key. *)
Definition prop (k : string) (obj : option Object) : field :=
  match obj with
  | Some o => default Absent (o !! k)
  | None => Absent
  end.

Definition thousand : Js.number := Eval vm_compute in Js.num_of_Z 1000.

(** The initial [formData] of [DomainModal] (lines 220-226); [domain] is
    missing in the "Add" modal and the row being edited in the "Edit"
    modal. *)
Definition initialFormData (domain : option Object) : Object :=
  <["domain_name" := or (prop "domain_name" domain) (JStr "")]>
  (<["target_url" := or (prop "target_url" domain) (JStr "")]>
  (<["security_level" := or (prop "security_level" domain) (JStr "moderate")]>
  (<["rate_limit" := or (prop "rate_limit" domain) (JNum thousand)]>
  (<["is_active" := coalesce (prop "is_active" domain) (JBool true)]> ∅)))).

(** The five inputs of the form (lines 254-318). *)
Inductive Input : Type :=
| DomainNameInput
| TargetUrlInput
| SecurityLevelSelect
| RateLimitInput
| IsActiveCheckbox.

#[export] Instance Input_eq_dec : EqDecision Input.
Proof. solve_decision. Defined.

Definition input_name (i : Input) : string :=
  match i with
  | DomainNameInput => "domain_name"
  | TargetUrlInput => "target_url"
  | SecurityLevelSelect => "security_level"
  | RateLimitInput => "rate_limit"
  | IsActiveCheckbox => "is_active"
  end.

(** The [type] property of the element. *)
Definition input_type (i : Input) : string :=
  match i with
  | DomainNameInput => "text"
  | TargetUrlInput => "url"
  | SecurityLevelSelect => "select-one"
  | RateLimitInput => "number"
  | IsActiveCheckbox => "checkbox"
  end.

(** The part of [e.target] that [handleChange] reads. *)
Record Target : Type := mkTarget {
  name : string;
  value : string;
  type : string;
  checked : bool
}.

(** A change event fired by one of the inputs of the form. *)
Definition change (i : Input) (value : string) (checked : bool) : Target :=
  {| name := input_name i; value := value; type := input_type i; checked := checked |}.

(** [handleChange] (lines 233-239). *)
Definition handleChange (e : Target) (formData : Object) : Object :=
  <[name e := if String.eqb (type e) "checkbox" then JBool (checked e) else JStr (value e)]>
    formData.

(** What the form holds for an input after a change of it. *)
Definition entered (i : Input) (value : string) (checked : bool) : field :=
  match i with
  | IsActiveCheckbox => JBool checked
  | _ => JStr value
  end.

(** The form after a series of changes, oldest first. *)
Definition edit (changes : list (Input * string * bool)) (formData : Object) : Object :=
  foldl (fun fd c => handleChange (change c.1.1 c.1.2 c.2) fd) formData changes.

(** The last change made to an input, if any. *)
Fixpoint last_change (i : Input) (changes : list (Input * string * bool))
  : option (string * bool) :=
  match changes with
  | [] => None
  | c :: rest =>
      match last_change i rest with
      | Some r => Some r
      | None => if decide (c.1.1 = i) then Some (c.1.2, c.2) else None
      end
  end.

(** What the form shows for an input whose field of the row is falsy (for
    the check box: missing or null). *)
Definition input_default (i : Input) : field :=
  match i with
  | DomainNameInput | TargetUrlInput => JStr ""
  | SecurityLevelSelect => JStr "moderate"
  | RateLimitInput => JNum thousand
  | IsActiveCheckbox => JBool true
  end.

(** The field of the row is taken over into the form as it is: it is
    truthy or, for the check box, neither missing nor null. *)
Definition kept (i : Input) (v : field) : bool :=
  match i with
  | IsActiveCheckbox =>
      match v with
      | Absent | JNull => false
      | _ => true
      end
  | _ => truthy v
  end.

End DomainManagement.

(** ** The request pipeline *)

(** *** Data model (spec section 3) *)

Module Model.

Inductive SecurityLevel : Type := relaxed | moderate | strict.

(** Modelled from the spec: the [DomainConfig] record of the missing
    registry; [rate_limit] is a positive integer. *)
Record DomainConfig : Type := mkDomain {
  domain_name : string;
  target_url : string;
  security_level : SecurityLevel;
  rate_limit : positive;
  is_active : bool
}.

(** Modelled from the spec: a [RateCounter] holds a count and the start of
    its window (seconds). *)
Record RateCounter : Type := mkCounter {
  count : Z;
  window_start : Z
}.

(** Modelled from the spec: the immutable [SecurityLogEntry] record. *)
Record SecurityLogEntry : Type := mkEntry {
  timestamp : Z;
  client_ip : string;
  request_method : string;
  request_path : string;
  reason : string;
  user_agent : option string;
  details : string
}.

(** Modelled from the spec: the view of an inbound request the pipeline
    works on. *)
Record Request : Type := mkRequest {
  req_method : string;
  req_host : string;
  req_path : string;
  req_query : string;
  req_headers : list (string * string);
  req_user_agent : option string;
  req_body : string;
  req_client_ip : string
}.

#[export] Instance SecurityLevel_eq_dec : EqDecision SecurityLevel.
Proof. solve_decision. Defined.

End Model.

(** *** Rate limiter (spec section 4.3) *)

Module RateLimiter.
Import Model.

Inductive Answer : Type := Allowed | Exceeded.

#[export] Instance Answer_eq_dec : EqDecision Answer.
Proof. solve_decision. Defined.

(** One hour, in seconds. *)
Definition hour : Z := 3600.

(** The shared counter store, keyed by [(domain_name, client_ip)]. *)
Abbreviation CounterStore := (gmap (string * string) RateCounter).

(** Modelled from the spec: [check(domain_name, client_ip, limit)] at time
    [now], one atomic read-modify-write of the counter of the key.  No
    counter: create it with count 1.  Window elapsed: reset to count 1.
    Otherwise increment, and answer [Exceeded] when the new count is above
    the limit, keeping the increment. *)
Definition check (domain client : string) (limit : positive) (now : Z)
  (store : CounterStore) : CounterStore * Answer :=
  match store !! (domain, client) with
  | None =>
      (<[(domain, client) := {| count := 1; window_start := now |}]> store, Allowed)
  | Some c =>
      if hour <=? now - window_start c
      then (<[(domain, client) := {| count := 1; window_start := now |}]> store, Allowed)
      else
        let n := count c + 1 in
        (<[(domain, client) := {| count := n; window_start := window_start c |}]> store,
         if Z.pos limit <? n then Exceeded else Allowed)
  end.

(** A sequence of calls of one client, in the order they are made. *)
Fixpoint check_all (domain client : string) (limit : positive) (times : list Z)
  (store : CounterStore) : CounterStore * list Answer :=
  match times with
  | [] => (store, [])
  | now :: rest =>
      let '(store1, d) := check domain client limit now store in
      let '(store2, ds) := check_all domain client limit rest store1 in
      (store2, d :: ds)
  end.

(** The key has no live window at time [now]: no counter, or one whose
    window has elapsed. *)
Definition no_live_window (domain client : string) (now : Z) (store : CounterStore) : Prop :=
  match store !! (domain, client) with
  | None => True
  | Some c => hour <= now - window_start c
  end.

(** **** Concurrent callers

    Requests are handled concurrently; each one performs a single [check],
    which the spec requires to be atomic.  A caller is a thread that is
    either about to call [check] or has got its answer; the scheduler picks
    any pending thread. *)

Inductive Thread : Type :=
| Pending (domain client : string) (limit : positive) (now : Z)
| Done (domain client : string) (d : Answer).

Record Config : Type := mkConfig {
  store : CounterStore;
  threads : list Thread
}.

Inductive step : Config -> Config -> Prop :=
| step_check (i : nat) (st : CounterStore) (ths : list Thread)
    (domain client : string) (limit : positive) (now : Z) :
    ths !! i = Some (Pending domain client limit now) ->
    step {| store := st; threads := ths |}
         {| store := fst (check domain client limit now st);
            threads := <[i := Done domain client (snd (check domain client limit now st))]> ths |}.

Definition steps : Config -> Config -> Prop := rtc step.

Definition admitted_by (domain client : string) (t : Thread) : bool :=
  match t with
  | Done d c Allowed => bool_decide ((d, c) = (domain, client))
  | _ => false
  end.

(** How many callers of the key have been answered [Allowed]. *)
Definition admitted (domain client : string) (ths : list Thread) : nat :=
  length (filter (fun t => admitted_by domain client t = true) ths).

(** All callers of the key use limit [limit] and carry a time stamp of the
    window [[lo, lo + hour)]. *)
Definition same_window (domain client : string) (limit : positive) (lo : Z)
  (ths : list Thread) : Prop :=
  Forall (fun t =>
    match t with
    | Pending d c l now =>
        (d, c) = (domain, client) -> l = limit /\ lo <= now < lo + hour
    | Done d c _ => (d, c) <> (domain, client)
    end) ths.

(** A scheduler: the indices of the threads, in the order they are run. *)
Definition run_thread (i : nat) (cfg : Config) : Config :=
  match threads cfg !! i with
  | Some (Pending domain client limit now) =>
      {| store := fst (check domain client limit now (store cfg));
         threads := <[i := Done domain client
                              (snd (check domain client limit now (store cfg)))]> (threads cfg) |}
  | _ => cfg
  end.

Definition run_schedule (schedule : list nat) (cfg : Config) : Config :=
  foldl (fun c i => run_thread i c) cfg schedule.

(** **** A limiter that is not atomic

    For contrast: the same decision taken in two steps, a read of the
    counter followed by a write of the incremented value. *)

Inductive RacyThread : Type :=
| RacyPending (now : Z)
| RacyRead (now : Z) (seen : option RateCounter)
| RacyDone (d : Answer).

Definition racy_write (domain client : string) (limit : positive) (now : Z)
  (seen : option RateCounter) (store : CounterStore) : CounterStore * Answer :=
  match seen with
  | None =>
      (<[(domain, client) := {| count := 1; window_start := now |}]> store, Allowed)
  | Some c =>
      if hour <=? now - window_start c
      then (<[(domain, client) := {| count := 1; window_start := now |}]> store, Allowed)
      else
        let n := count c + 1 in
        (<[(domain, client) := {| count := n; window_start := window_start c |}]> store,
         if Z.pos limit <? n then Exceeded else Allowed)
  end.

Definition racy_run (domain client : string) (limit : positive) (i : nat)
  (cfg : CounterStore * list RacyThread) : CounterStore * list RacyThread :=
  let '(st, ths) := cfg in
  match ths !! i with
  | Some (RacyPending now) =>
      (st, <[i := RacyRead now (st !! (domain, client))]> ths)
  | Some (RacyRead now seen) =>
      let '(st', d) := racy_write domain client limit now seen st in
      (st', <[i := RacyDone d]> ths)
  | _ => cfg
  end.

Definition racy_schedule (domain client : string) (limit : positive)
  (schedule : list nat) (cfg : CounterStore * list RacyThread)
  : CounterStore * list RacyThread :=
  foldl (fun c i => racy_run domain client limit i c) cfg schedule.

Definition racy_admitted_by (t : RacyThread) : bool :=
  match t with
  | RacyDone Allowed => true
  | _ => false
  end.

Definition racy_admitted (ths : list RacyThread) : nat :=
  length (filter (fun t => racy_admitted_by t = true) ths).

End RateLimiter.

(** *** Domain registry (spec section 4.1) *)

Module DomainRegistry.
Import Model.

(** The registry: the rows of the [DomainConfig] table. *)
Abbreviation Registry := (list DomainConfig).

(** Case-insensitive exact comparison of host names. *)
Definition host_eqb (a b : string) : bool :=
  String.eqb (Js.toLowerCase a) (Js.toLowerCase b).

Definition names_host (host : string) (d : DomainConfig) : bool :=
  host_eqb (domain_name d) host.

(** Modelled from the spec: [resolve(host)], [None] standing for
    [NotFound].  The entry whose name equals [host] up to case is looked up;
    an inactive entry is reported as [NotFound]. *)
Definition resolve (host : string) (reg : Registry) : option DomainConfig :=
  match List.find (names_host host) reg with
  | Some d => if is_active d then Some d else None
  | None => None
  end.

(** Modelled from the spec: the registry invariant, [domain_name] is unique
    (names are compared up to case). *)
Definition unique_names (reg : Registry) : Prop :=
  NoDup (map (fun d => Js.toLowerCase (domain_name d)) reg).

End DomainRegistry.

(** *** Rule engine (spec section 4.2) *)

Module RuleEngine.
Import Model.

Inductive Category : Type :=
| MalformedRequest
| BlockedFileExtension
| SuspiciousUserAgent
| SuspiciousHeader
| PathTraversal
| CommandInjection
| SQLInjection
| XSS.

#[export] Instance Category_eq_dec : EqDecision Category.
Proof. solve_decision. Defined.

(** Modelled from the spec: the names of the rule categories (section 3). *)
Definition category_name (c : Category) : string :=
  match c with
  | MalformedRequest => "Malformed Request"
  | BlockedFileExtension => "Blocked File Extension"
  | SuspiciousUserAgent => "Suspicious User Agent"
  | SuspiciousHeader => "Suspicious Header"
  | PathTraversal => "Path Traversal"
  | CommandInjection => "Command Injection"
  | SQLInjection => "SQL Injection"
  | XSS => "XSS"
  end.

(** Modelled from the spec: the fixed evaluation order. *)
Definition evaluation_order : list Category :=
  [ MalformedRequest; BlockedFileExtension; SuspiciousUserAgent; SuspiciousHeader;
    PathTraversal; CommandInjection; SQLInjection; XSS ].

(** Modelled from the spec: the categories a security level activates.
    [relaxed] has only categories 1-2 and 6-8; the other two levels have
    all eight. *)
Definition active (level : SecurityLevel) (c : Category) : bool :=
  match level with
  | relaxed =>
      match c with
      | MalformedRequest | BlockedFileExtension
      | CommandInjection | SQLInjection | XSS => true
      | SuspiciousUserAgent | SuspiciousHeader | PathTraversal => false
      end
  | moderate | strict => true
  end.

(** The detection predicates of the categories, one pure function per
    category; the level selects how permissive the pattern set is.  A match
    yields the free-form details of the verdict.  The pattern tables
    themselves are not part of the tree, so the engine is stated over any
    rule set. *)
Definition RuleSet : Type := Category -> SecurityLevel -> Request -> option string.

Inductive Verdict : Type :=
| Clean
| Flagged (category : Category) (details : string).

(** Modelled from the spec: categories are tried in order and the first
    one that is active and matches decides the verdict.  The second
    component records the categories whose predicate was evaluated. *)
Fixpoint first_match (rules : RuleSet) (cats : list Category)
  (level : SecurityLevel) (req : Request) : Verdict * list Category :=
  match cats with
  | [] => (Clean, [])
  | c :: rest =>
      if active level c
      then match rules c level req with
           | Some d => (Flagged c d, [c])
           | None =>
               let '(v, seen) := first_match rules rest level req in
               (v, c :: seen)
           end
      else first_match rules rest level req
  end.

(** Modelled from the spec: [inspect(request, security_level)]. *)
Definition inspect_trace (rules : RuleSet) (req : Request) (level : SecurityLevel)
  : Verdict * list Category :=
  first_match rules evaluation_order level req.

Definition inspect (rules : RuleSet) (req : Request) (level : SecurityLevel) : Verdict :=
  fst (inspect_trace rules req level).

(** [c] matches [req] at [level]: it is active there and its predicate
    fires. *)
Definition matches (rules : RuleSet) (level : SecurityLevel) (req : Request)
  (c : Category) : Prop :=
  active level c = true /\ rules c level req <> None.

(** [a] comes strictly before [b] in the evaluation order. *)
Definition position (c : Category) : nat :=
  match c with
  | MalformedRequest => 0
  | BlockedFileExtension => 1
  | SuspiciousUserAgent => 2
  | SuspiciousHeader => 3
  | PathTraversal => 4
  | CommandInjection => 5
  | SQLInjection => 6
  | XSS => 7
  end.

Definition before (a b : Category) : Prop := (position a < position b)%nat.

(** Modelled from the spec: a rule set whose Path Traversal predicate
    covers the plain [../] signature in the path or the query at every
    level where the category is consulted. *)
Definition detects_dot_dot_slash (rules : RuleSet) : Prop :=
  forall level req,
    Js.includes "../" (req_path req) = true \/ Js.includes "../" (req_query req) = true ->
    rules PathTraversal level req <> None.

(** Ten megabytes, the body size ceiling. *)
Definition body_ceiling : nat := 10 * 1024 * 1024.

(** Modelled from the spec: a small rule set with the signatures the spec
    spells out: a body above 10 MB is malformed, [../] in the path or the
    query is a path traversal, a [<script] tag is XSS, [UNION SELECT] (in
    any case) is SQL injection, a path ending in [.exe] is a blocked
    extension.  The remaining categories never fire. *)
Definition reference_rules : RuleSet :=
  fun c level req =>
    match c with
    | MalformedRequest =>
        if (body_ceiling <? String.length (req_body req))%nat
        then Some "body too large" else None
    | BlockedFileExtension =>
        if Js.endsWith ".exe" (Js.toLowerCase (req_path req))
        then Some "blocked extension" else None
    | PathTraversal =>
        if (Js.includes "../" (req_path req) || Js.includes "../" (req_query req))%bool
        then Some "directory traversal" else None
    | SQLInjection =>
        if Js.includes "union select" (Js.toLowerCase (req_query req))
        then Some "UNION-based extraction" else None
    | XSS =>
        if Js.includes "<script" (Js.toLowerCase (req_query req))
        then Some "script tag" else None
    | SuspiciousUserAgent | SuspiciousHeader | CommandInjection => None
    end.

End RuleEngine.

(** *** Security log sink (spec section 4.4) and statistics (section 6) *)

Module LogSink.
Import Model.

(** The append-only table of log entries, oldest first. *)
Abbreviation Log := (list SecurityLogEntry).

(** Modelled from the spec: [record(entry)], a durable append. *)
Definition record (e : SecurityLogEntry) (log : Log) : Log := log ++ [e].

Definition rate_limit_reason : string := "Rate Limit Exceeded".

(** Modelled from the spec: the values the [reason] field ranges over, the
    eight rule categories and the rate limit reason. *)
Definition reason_vocabulary : list string :=
  map RuleEngine.category_name RuleEngine.evaluation_order ++ [rate_limit_reason].

(** Modelled from the spec: free-text search over IP, path and method; an
    empty search term selects every entry. *)
Definition search_matches (term : string) (e : SecurityLogEntry) : bool :=
  Js.includes term (client_ip e) || Js.includes term (request_path e)
  || Js.includes term (request_method e).

(** Modelled from the spec: filter by reason; no [reason] parameter selects
    every entry. *)
Definition reason_matches (wanted : option string) (e : SecurityLogEntry) : bool :=
  match wanted with
  | None => true
  | Some r => String.eqb r (reason e)
  end.

(** Modelled from the spec: the log query read through [GET /admin/logs],
    with the optional [search] and [reason] parameters applied together. *)
Definition query (search wanted : option string) (log : Log) : Log :=
  List.filter (fun e => search_matches (default "" search) e && reason_matches wanted e) log.

(** The parameters of a request as the query string carries them. *)
Definition param (name : string) (params : list (string * string)) : option string :=
  snd <$> List.find (fun p => String.eqb (fst p) name) params.

Definition day : Z := 86400.

Definition in_last_24h (now : Z) (e : SecurityLogEntry) : bool :=
  now - day <=? timestamp e.

Definition count_reason (r : string) (log : Log) : nat :=
  length (List.filter (fun e => String.eqb r (reason e)) log).

(** Distinct reasons of the log, in order of first appearance. *)
Fixpoint reasons_of (log : Log) : list string :=
  match log with
  | [] => []
  | e :: rest =>
      reason e :: List.filter (fun r => negb (String.eqb (reason e) r)) (reasons_of rest)
  end.

(** Insertion into a list sorted by decreasing count. *)
Fixpoint insert_by_count (x : string * nat) (l : list (string * nat)) : list (string * nat) :=
  match l with
  | [] => [x]
  | y :: rest =>
      if (snd y <? snd x)%nat then x :: y :: rest
      else y :: insert_by_count x rest
  end.

Definition sort_by_count (l : list (string * nat)) : list (string * nat) :=
  fold_right insert_by_count [] l.

(** Modelled from the spec: grouped counts per reason, largest first. *)
Definition grouped_counts (log : Log) : list (string * nat) :=
  sort_by_count (map (fun r => (r, count_reason r log)) (reasons_of log)).

(** Modelled from the spec: the answer of the aggregate statistics
    endpoint. *)
Record Statistics : Type := mkStatistics {
  total_domains : nat;
  active_domains : nat;
  total_requests : nat;
  blocked_requests : nat;
  recent_attacks : nat;
  top_attack_types : list (string * nat)
}.

End LogSink.

(** *** Request pipeline (spec section 4.5) *)

Module Pipeline.
Import Model.

Inductive Terminal : Type :=
| Forwarded
| Blocked
| RejectedUnknownHost
| RejectedUpstreamError.

(** What the origin does with one forwarding attempt. *)
Inductive UpstreamResult : Type :=
| UpstreamOk (status : Z) (body : string)
| UpstreamConnectError
| UpstreamTimeout.

(** The origins: the result of the [n]-th attempt to forward a request to a
    target URL. *)
Definition Upstream : Type := string -> Request -> nat -> UpstreamResult.

Record Response : Type := mkResponse {
  terminal : Terminal;
  status : Z;
  body : string
}.

(** Modelled from the spec: the state the pipeline reads and writes: the
    registry, the counter store, the security log and the "total requests"
    counter of step 5. *)
Record State : Type := mkState {
  registry : DomainRegistry.Registry;
  counters : RateLimiter.CounterStore;
  log : LogSink.Log;
  forwarded_total : nat
}.

Definition entry_for (now : Z) (req : Request) (reason details : string)
  : SecurityLogEntry :=
  {| timestamp := now;
     client_ip := req_client_ip req;
     request_method := req_method req;
     request_path := req_path req;
     reason := reason;
     user_agent := req_user_agent req;
     details := details |}.

(** Modelled from the spec: forwarding, retried at most once (section 7). *)
Definition forward (up : Upstream) (target : string) (req : Request) : UpstreamResult :=
  match up target req 0%nat with
  | UpstreamOk s b => UpstreamOk s b
  | _ => up target req 1%nat
  end.

(** Modelled from the spec: the per-request state machine
    [Received -> DomainResolved -> RateChecked -> Inspected -> terminal]. *)
Definition handle (rules : RuleEngine.RuleSet) (up : Upstream) (now : Z)
  (req : Request) (s : State) : State * Response :=
  match DomainRegistry.resolve (req_host req) (registry s) with
  | None =>
      (s, {| terminal := RejectedUnknownHost; status := 404; body := "Not Found" |})
  | Some cfg =>
      let '(counters1, answer) :=
        RateLimiter.check (domain_name cfg) (req_client_ip req) (rate_limit cfg) now
          (counters s) in
      match answer with
      | RateLimiter.Exceeded =>
          ({| registry := registry s;
              counters := counters1;
              log := LogSink.record
                       (entry_for now req LogSink.rate_limit_reason "rate limit exceeded")
                       (log s);
              forwarded_total := forwarded_total s |},
           {| terminal := Blocked; status := 429; body := "Too Many Requests" |})
      | RateLimiter.Allowed =>
          match RuleEngine.inspect rules req (security_level cfg) with
          | RuleEngine.Flagged c d =>
              ({| registry := registry s;
                  counters := counters1;
                  log := LogSink.record
                           (entry_for now req (RuleEngine.category_name c) d) (log s);
                  forwarded_total := forwarded_total s |},
               {| terminal := Blocked; status := 403; body := "Forbidden" |})
          | RuleEngine.Clean =>
              match forward up (target_url cfg) req with
              | UpstreamOk st b =>
                  ({| registry := registry s;
                      counters := counters1;
                      log := log s;
                      forwarded_total := S (forwarded_total s) |},
                   {| terminal := Forwarded; status := st; body := b |})
              | UpstreamConnectError =>
                  ({| registry := registry s;
                      counters := counters1;
                      log := log s;
                      forwarded_total := forwarded_total s |},
                   {| terminal := RejectedUpstreamError; status := 502;
                      body := "Bad Gateway" |})
              | UpstreamTimeout =>
                  ({| registry := registry s;
                      counters := counters1;
                      log := log s;
                      forwarded_total := forwarded_total s |},
                   {| terminal := RejectedUpstreamError; status := 504;
                      body := "Gateway Timeout" |})
              end
          end
      end
  end.

(** A run of the pipeline over requests with their arrival times. *)
Fixpoint handle_all (rules : RuleEngine.RuleSet) (up : Upstream)
  (reqs : list (Z * Request)) (s : State) : State :=
  match reqs with
  | [] => s
  | (now, req) :: rest => handle_all rules up rest (fst (handle rules up now req s))
  end.

(** Modelled from the spec: the aggregate statistics, computed from the
    stored state when they are asked for; [top] is the N of "top-N". *)
Definition statistics (top : nat) (now : Z) (s : State) : LogSink.Statistics :=
  {| LogSink.total_domains := length (registry s);
     LogSink.active_domains := length (List.filter is_active (registry s));
     LogSink.total_requests := forwarded_total s;
     LogSink.blocked_requests := length (log s);
     LogSink.recent_attacks := length (List.filter (LogSink.in_last_24h now) (log s));
     LogSink.top_attack_types := take top (LogSink.grouped_counts (log s)) |}.

(** The JSON object the console receives for these statistics. *)
Definition stats_json (st : LogSink.Statistics) : Dashboard.Stats :=
  Dashboard.stats_of_counts
    (Z.of_nat (LogSink.total_domains st)) (Z.of_nat (LogSink.active_domains st))
    (Z.of_nat (LogSink.total_requests st)) (Z.of_nat (LogSink.blocked_requests st))
    (Z.of_nat (LogSink.recent_attacks st))
    (map (fun p => (fst p, Z.of_nat (snd p))) (LogSink.top_attack_types st)).

(** Modelled from the spec: the log query endpoint, fed with the parameters
    the console sends. *)
Definition logs_endpoint (params : list (string * string)) (s : State) : LogSink.Log :=
  LogSink.query (LogSink.param "search" params) (LogSink.param "reason" params) (log s).

End Pipeline.

(* ===================================================================== *)
(** * Part II: theorems                                                   *)
(* ===================================================================== *)

(** ** The authentication state of the console *)

Section AuthContextFacts.
Import AuthContext.

Lemma str_truthy_spec (v : option string) :
  Js.str_truthy v = true <-> exists s, v = Some s /\ s <> "".
Proof.
  destruct v as [s|]; simpl.
  - rewrite negb_true_iff. split.
    + intros E. exists s. split; [done|]. intros ->. discriminate.
    + intros (s' & [= <-] & Hne). apply String.eqb_neq. exact Hne.
  - split; [discriminate|]. intros (s & [=] & _).
Qed.

Lemma consistent_initial : consistent initial.
Proof. unfold consistent, initial; simpl. split; [discriminate | congruence]. Qed.

Lemma load_consistent ls st : consistent st -> consistent (load ls st).
Proof.
  unfold consistent, load. intros H.
  destruct (Js.str_truthy (getItem waf_token ls)) eqn:E; simpl.
  - apply str_truthy_spec in E as (s & -> & _). split; [discriminate | done].
  - exact H.
Qed.

Lemma login_consistent reply ls st :
  consistent st -> consistent (login reply ls st).1.2.
Proof.
  unfold consistent. intros H. destruct reply; simpl; [|exact H].
  split; [discriminate | done].
Qed.

Lemma logout_consistent ls st : consistent (logout ls st).2.
Proof. unfold consistent; simpl. split; [discriminate | congruence]. Qed.

Lemma load_adopts_stored_token ls :
  isAuthenticated (load ls initial) = true <->
  exists v, getItem waf_token ls = Some v /\ v <> "".
Proof.
  rewrite <- str_truthy_spec. unfold load.
  destruct (Js.str_truthy (getItem waf_token ls)); simpl; split; congruence.
Qed.

(** C9.  The provider keeps [isAuthenticated] true exactly when [token] is
    not null: the invariant holds on first render and is preserved by the
    mount effect, by [login] and by [logout].  The mount effect
    authenticates exactly when a non-empty value is stored under
    ['waf_token'], adopting that value as the token, with nothing but
    [localStorage] consulted.  [logout] removes the stored token, nulls
    [token] and clears [isAuthenticated]. *)
Theorem auth_invariant (ls : Storage) (st : AuthState) (reply : LoginReply) :
  consistent st ->
  consistent initial /\
  consistent (load ls st) /\
  consistent (login reply ls st).1.2 /\
  consistent (logout ls st).2 /\
  (isAuthenticated (load ls initial) = true <->
     exists v, getItem waf_token ls = Some v /\ v <> "") /\
  (forall v, getItem waf_token ls = Some v -> v <> "" ->
     isAuthenticated (load ls initial) = true /\ token (load ls initial) = Some v) /\
  getItem waf_token (logout ls st).1 = None /\
  token (logout ls st).2 = None /\
  isAuthenticated (logout ls st).2 = false.
Proof.
  intros H. repeat split.
  - apply consistent_initial.
  - apply consistent_initial.
  - apply load_consistent, H.
  - apply load_consistent, H.
  - apply login_consistent, H.
  - apply login_consistent, H.
  - discriminate.
  - simpl. congruence.
  - apply load_adopts_stored_token.
  - apply load_adopts_stored_token.
  - apply load_adopts_stored_token. eauto.
  - unfold load. rewrite H0.
    assert (Js.str_truthy (Some v) = true) as -> by (apply str_truthy_spec; eauto).
    done.
  - unfold logout, getItem, removeItem; simpl. apply lookup_delete_eq.
Qed.

(** A browser that holds a stale token: the mount effect authenticates. *)
Lemma auth_invariant_witness :
  consistent (load {["waf_token" := "stale"]} initial) /\
  isAuthenticated (load {["waf_token" := "stale"]} initial) = true.
Proof.
  destruct (auth_invariant {["waf_token" := "stale"]} initial (LoginOk "fresh")
              consistent_initial) as (_ & H & _ & _ & _ & Hl & _).
  split; [exact H|].
  apply (Hl "stale"); [reflexivity | discriminate].
Defined.

End AuthContextFacts.

(** ** The block rate of the dashboard *)

Section DashboardFacts.
Import Js Dashboard.

Lemma num_gt_zero_positive (t : number) :
  num_gt t zero = true ->
  t = S754_infinity false \/ exists m e, t = S754_finite false m e.
Proof.
  unfold num_gt, zero, SFltb. destruct t as [s|s| |s m e]; simpl; try discriminate.
  - destruct s; [discriminate|]. auto.
  - destruct s; [discriminate|]. eauto.
Qed.

Lemma guard_needs_number (stats : option Stats) :
  num_gt (to_number (opt_get total_requests stats)) zero = true ->
  exists s x, stats = Some s /\ total_requests s = Num x /\ num_gt x zero = true.
Proof.
  destruct stats as [s|]; simpl; [|discriminate].
  destruct (total_requests s) as [| |x] eqn:E; simpl; try discriminate.
  eauto.
Qed.

Lemma round_hundredths_nearest (m : positive) (e : Z) :
  nearest_hundredth m e (round_hundredths m e) /\ 0 <= round_hundredths m e.
Proof.
  unfold nearest_hundredth, round_hundredths. destruct e as [|p|p].
  - change (2 ^ Z.max 0 (- 0)) with 1. change (2 ^ Z.max 0 0) with 1. lia.
  - change (Z.max 0 (- Z.pos p)) with 0. change (Z.max 0 (Z.pos p)) with (Z.pos p).
    change (2 ^ 0) with 1.
    assert (0 < 2 ^ Z.pos p) by (apply Z.pow_pos_nonneg; lia).
    set (d := 2 ^ Z.pos p) in *.
    replace (2 * (100 * Z.pos m * d) * 1 - 200 * Z.pos m * d) with 0 by ring.
    split; [lia|]. apply Z.mul_nonneg_nonneg; lia.
  - change (Z.max 0 (- Z.neg p)) with (Z.pos p). change (Z.max 0 (Z.neg p)) with 0.
    change (2 ^ 0) with 1.
    assert (Hd : 0 < 2 ^ Z.pos p) by (apply Z.pow_pos_nonneg; lia).
    rewrite Z.pow_add_r by lia. change (2 ^ 1) with 2.
    set (d := 2 ^ Z.pos p) in *. set (a := 200 * Z.pos m + d).
    assert (Hdiv := Z.div_mod a (d * 2) ltac:(lia)).
    assert (Hmod := Z.mod_pos_bound a (d * 2) ltac:(lia)).
    assert (0 <= a / (d * 2)) by (apply Z.div_pos; lia).
    split; [|lia]. subst a. nia.
Qed.

Lemma decimal_value_app (s1 s2 : string) (acc : Z) :
  decimal_value_from acc (s1 +:+ s2) = decimal_value_from acc s1 ≫= (fun a => decimal_value_from a s2).
Proof.
  revert acc. induction s1 as [|c r IH]; intros acc; simpl; [done|].
  destruct (_ && _); [apply IH | done].
Qed.

Lemma decimal_value_digit (d acc : Z) :
  0 <= d <= 9 -> decimal_value_from acc (digit d) = Some (10 * acc + d).
Proof.
  intros Hd. unfold digit. cbn [decimal_value_from].
  rewrite nat_ascii_embedding by lia.
  replace (Z.of_nat (48 + Z.to_nat d) - 48) with d by lia.
  destruct (Z.leb_spec 0 d), (Z.leb_spec d 9); try lia. done.
Qed.

Lemma digits_fuel_value (fuel : nat) (n : Z) :
  0 <= n < 10 ^ Z.of_nat (S fuel) ->
  decimal_value_from 0 (digits_fuel fuel n) = Some n.
Proof.
  revert n. induction fuel as [|k IH]; intros n Hn.
  - change (10 ^ Z.of_nat 1) with 10 in Hn. cbn [digits_fuel].
    rewrite Z.mod_small by lia. rewrite decimal_value_digit by lia. f_equal; lia.
  - cbn [digits_fuel]. destruct (Z.ltb_spec n 10).
    + rewrite decimal_value_digit by lia. f_equal; lia.
    + rewrite decimal_value_app, IH.
      * cbn [mbind option_bind]. assert (Hm := Z.mod_pos_bound n 10 ltac:(lia)).
        rewrite decimal_value_digit by lia. f_equal.
        assert (Hdm := Z.div_mod n 10 ltac:(lia)). lia.
      * split; [apply Z.div_pos; lia|].
        apply Z.div_lt_upper_bound; [lia|].
        replace (Z.of_nat (S (S k))) with (1 + Z.of_nat (S k)) in Hn by lia.
        rewrite Z.pow_add_r in Hn by lia. change (10 ^ 1) with 10 in Hn. lia.
Qed.

Lemma digits_value (n : Z) : 0 <= n -> decimal_value_from 0 (digits n) = Some n.
Proof.
  intros Hn. unfold digits. apply digits_fuel_value. split; [done|].
  destruct (Z.eq_dec n 0) as [->|Hne]; [done|].
  assert (Hl := Z.log2_spec n ltac:(lia)).
  assert (0 <= Z.log2 n) by apply Z.log2_nonneg.
  replace (Z.of_nat (S (Z.to_nat (Z.log2 n)))) with (Z.succ (Z.log2 n)) by lia.
  eapply Z.lt_le_trans; [apply Hl|].
  apply Z.pow_le_mono_l. lia.
Qed.

(** [fixed2 n] is the decimal notation of [n / 100] with two decimals. *)
Lemma fixed2_denotes (n : Z) :
  0 <= n ->
  exists whole d1 d0,
    fixed2 n = whole +:+ "." +:+ digit d1 +:+ digit d0 /\
    decimal_value_from 0 whole = Some (n / 100) /\
    0 <= d1 <= 9 /\ 0 <= d0 <= 9 /\
    100 * (n / 100) + 10 * d1 + d0 = n.
Proof.
  intros Hn. exists (digits (n / 100)), (n mod 100 / 10), (n mod 10).
  assert (H100 := Z.mod_pos_bound n 100 ltac:(lia)).
  assert (H10 := Z.mod_pos_bound n 10 ltac:(lia)).
  split; [reflexivity|]. split; [apply digits_value, Z.div_pos; lia|].
  split; [split; [apply Z.div_pos; lia | apply Z.lt_succ_r, Z.div_lt_upper_bound; lia]|].
  split; [lia|].
  assert (Hd := Z.div_mod n 100 ltac:(lia)).
  assert (He := Z.div_mod (n mod 100) 10 ltac:(lia)).
  assert (n mod 100 mod 10 = n mod 10).
  { apply Z.mod_mod_divide. exists 10. lia. }
  lia.
Qed.

(** C10 (X15).  [blockRate] never raises.  When [stats?.total_requests > 0] is
    false, which includes an absent [stats] and an absent or null
    [total_requests], the value is the number [0] and no division is
    evaluated.  When it is true, [stats] is present, the denominator is a
    number that is neither zero nor NaN, and the value is
    [((blocked / total) * 100).toFixed(2)] in binary64 arithmetic; whenever
    that product is finite and below [10^21] the string is the decimal
    notation, with two decimals, of the hundredth nearest to it. *)
Theorem blockRate_guarded (stats : option Stats) :
  (num_gt (to_number (opt_get total_requests stats)) zero = false ->
     blockRate stats = Some (RateNumber zero) /\ blockRate_division stats = None) /\
  (stats = None -> blockRate stats = Some (RateNumber zero)) /\
  (num_gt (to_number (opt_get total_requests stats)) zero = true ->
     exists s b t,
       stats = Some s /\ total_requests s = Num t /\ b = to_number (blocked_requests s) /\
       num_gt t zero = true /\ t <> S754_nan /\ (forall sg, t <> S754_zero sg) /\
       blockRate_division stats = Some (b, t) /\
       blockRate stats = Some (RateText (toFixed2 (num_mul (num_div b t) hundred))) /\
       forall sg m e,
         num_mul (num_div b t) hundred = S754_finite sg m e ->
         at_least_1e21 m e = false ->
         exists n,
           blockRate stats =
             Some (RateText (Text ((if sg then "-" else "") +:+ fixed2 n))) /\
           nearest_hundredth m e n /\ 0 <= n).
Proof.
  split; [|split].
  - intros G. unfold blockRate, blockRate_division. rewrite G. done.
  - intros ->. reflexivity.
  - intros G. destruct (guard_needs_number stats G) as (s & t & -> & Ht & Hpos).
    exists s, (to_number (blocked_requests s)), t.
    assert (Hb : blockRate (Some s) =
                 Some (RateText (toFixed2
                   (num_mul (num_div (to_number (blocked_requests s)) t) hundred)))).
    { unfold blockRate. rewrite G. simpl. rewrite Ht. reflexivity. }
    repeat split; try done.
    + destruct (num_gt_zero_positive t Hpos) as [->|(m & e & ->)]; discriminate.
    + intros sg. destruct (num_gt_zero_positive t Hpos) as [->|(m & e & ->)]; discriminate.
    + unfold blockRate_division. rewrite G. simpl. rewrite Ht. reflexivity.
    + intros sg m e Hprod Hsmall. exists (round_hundredths m e).
      rewrite Hb, Hprod. unfold toFixed2. rewrite Hsmall.
      split; [done|]. apply round_hundredths_nearest.
Qed.

(** 201 blocked requests out of 20000: the guard holds and the division of
    line 91 is evaluated with these two operands. *)
Lemma blockRate_guarded_witness :
  let stats := Some (stats_of_counts 3 2 20000 201 7 []) in
  num_gt (to_number (opt_get total_requests stats)) zero = true /\
  exists b t,
    blockRate_division stats = Some (b, t) /\
    blockRate stats = Some (RateText (toFixed2 (num_mul (num_div b t) hundred))).
Proof.
  intros stats.
  assert (G : num_gt (to_number (opt_get total_requests stats)) zero = true)
    by (vm_compute; reflexivity).
  split; [exact G|].
  destruct (proj2 (proj2 (blockRate_guarded stats)) G)
    as (s & b & t & _ & _ & _ & _ & _ & _ & Hd & Hr & _).
  exists b, t. split; assumption.
Defined.

End DashboardFacts.

(** ** A visit to the console *)

Section VisitFacts.
Import AuthContext App.

Lemma react_coherent e cfg : coherent cfg -> coherent (react e cfg).
Proof.
  destruct cfg as [ls st]. unfold coherent. intros H tok.
  destruct e as [|[tk|d]|]; simpl.
  - unfold load. destruct (Js.str_truthy (getItem waf_token ls)) eqn:E; simpl.
    + congruence.
    + apply H.
  - intros [= ->]. apply lookup_insert_eq.
  - apply H.
  - discriminate.
Qed.

Lemma react_consistent e cfg : consistent cfg.2 -> consistent (react e cfg).2.
Proof.
  destruct cfg as [ls st]. intros H. destruct e as [|reply|].
  - exact (load_consistent ls st H).
  - exact (login_consistent reply ls st H).
  - exact (logout_consistent ls st).
Qed.

Lemma visit_snoc events e ls : visit (events ++ [e]) ls = react e (visit events ls).
Proof. unfold visit. rewrite foldl_app. reflexivity. Qed.

Lemma react_isLoading e cfg :
  isLoading (react e cfg).2 = isLoading cfg.2 && negb (is_mount e).
Proof.
  destruct cfg as [ls st]. destruct e as [|[tk|d]|]; simpl;
    rewrite ?andb_true_r, ?andb_false_r; reflexivity.
Qed.

(** X1.  Throughout a visit, whatever the order of mount effect, login
    attempts and logouts and whatever the server answers, the provider is
    authenticated exactly when it holds a token, the token it holds is the
    one stored under ['waf_token'], and the protected routes are rendered
    only while such a token is held. *)
Theorem visit_session_coherent (events : list Event) (ls : Storage) :
  consistent (visit events ls).2 /\
  coherent (visit events ls) /\
  (AppContent (visit events ls).2 = ProtectedRoutes <->
     isLoading (visit events ls).2 = false /\
     exists tok, token (visit events ls).2 = Some tok /\
                 getItem waf_token (visit events ls).1 = Some tok).
Proof.
  assert (Inv : consistent (visit events ls).2 /\ coherent (visit events ls)).
  { induction events as [|e events IH] using rev_ind.
    - split; [apply consistent_initial | intros tok; discriminate].
    - rewrite visit_snoc. destruct IH as [IH1 IH2].
      split; [apply react_consistent, IH1 | apply react_coherent, IH2]. }
  destruct Inv as [Hc Hk]. split; [exact Hc|]. split; [exact Hk|].
  unfold AppContent. destruct (visit events ls) as [ls' st]; simpl in *.
  unfold consistent in Hc. unfold coherent in Hk; simpl in Hk.
  destruct (isLoading st); [split; [discriminate | intros [? _]; discriminate]|].
  destruct (isAuthenticated st) eqn:Ea; simpl.
  - split; [|done]. intros _. split; [done|].
    destruct (token st) as [tok|] eqn:Et.
    + exists tok. split; [done|]. apply Hk. reflexivity.
    + exfalso. exact (proj1 Hc eq_refl eq_refl).
  - split; [discriminate|]. intros (_ & tok & Et & _).
    assert (false = true); [|discriminate]. apply Hc. congruence.
Qed.

(** X2.  The spinner is on screen exactly until the mount effect has run:
    no login attempt or logout brings it back, and none removes it. *)
Theorem spinner_until_mounted (events : list Event) (ls : Storage) :
  isLoading (visit events ls).2 = negb (existsb is_mount events) /\
  (AppContent (visit events ls).2 = Spinner <-> existsb is_mount events = false).
Proof.
  assert (H : isLoading (visit events ls).2 = negb (existsb is_mount events)).
  { induction events as [|e events IH] using rev_ind; [reflexivity|].
    rewrite visit_snoc, react_isLoading, IH, existsb_app. simpl.
    rewrite orb_false_r, negb_orb. reflexivity. }
  split; [exact H|]. unfold AppContent. rewrite H.
  destruct (existsb is_mount events); simpl.
  - split; [|intros E; discriminate E].
    destruct (isAuthenticated _); intros E; discriminate E.
  - split; done.
Qed.

(** X3.  A rejected login changes neither [localStorage] nor the state of
    the provider, and always reports a non-empty error message: the
    [detail] of the server when it sent a non-empty one, ['Login failed']
    otherwise. *)
Theorem login_rejected_changes_nothing (detail : option string)
  (ls : Storage) (st : AuthState) :
  (login (LoginRejected detail) ls st).1 = (ls, st) /\
  success (login (LoginRejected detail) ls st).2 = false /\
  exists e, error (login (LoginRejected detail) ls st).2 = Some e /\
            String.eqb e "" = false /\
            (detail = Some e \/ (e = "Login failed" /\ Js.str_truthy detail = false)).
Proof.
  split; [reflexivity|]. split; [reflexivity|]. simpl.
  destruct (Js.str_truthy detail) eqn:E.
  - apply str_truthy_spec in E as (s & -> & Hs). exists s. simpl.
    split; [reflexivity|]. split; [|left; reflexivity].
    apply String.eqb_neq. exact Hs.
  - exists "Login failed". split; [reflexivity|]. split; [reflexivity|]. right. done.
Qed.

(** X4.  A successful login authenticates at once, and survives a reload of
    the page exactly when the token the server sent is not the empty
    string: a provider mounted afresh over the storage the login left finds
    that token again, or, for an empty token, stays logged out. *)
Theorem login_survives_reload (tok : string) (ls : Storage) (st : AuthState) :
  isAuthenticated (login (LoginOk tok) ls st).1.2 = true /\
  token (login (LoginOk tok) ls st).1.2 = Some tok /\
  isAuthenticated (load (login (LoginOk tok) ls st).1.1 initial)
    = negb (String.eqb tok "") /\
  token (load (login (LoginOk tok) ls st).1.1 initial)
    = (if String.eqb tok "" then None else Some tok).
Proof.
  split; [reflexivity|]. split; [reflexivity|].
  unfold load, login, getItem, setItem. cbn [fst snd].
  rewrite lookup_insert_eq. unfold Js.str_truthy.
  destruct (String.eqb tok ""); split; reflexivity.
Qed.

(** X5.  After a logout the session is gone for good: a provider mounted
    afresh over the storage it left is logged out with no token, whatever
    was stored or held before, and a second logout changes nothing more. *)
Theorem logout_ends_session (ls : Storage) (st : AuthState) :
  isAuthenticated (load (logout ls st).1 initial) = false /\
  token (load (logout ls st).1 initial) = None /\
  AppContent (load (logout ls st).1 initial) = LoginScreen /\
  logout (logout ls st).1 (logout ls st).2 = logout ls st.
Proof.
  assert (E : getItem waf_token (logout ls st).1 = None).
  { unfold logout, getItem, removeItem. cbn [fst]. apply lookup_delete_eq. }
  unfold load, AppContent. rewrite E. cbn.
  split; [reflexivity|]. split; [reflexivity|]. split; [reflexivity|].
  unfold logout, removeItem. cbn [fst snd isLoading]. rewrite delete_delete_eq. reflexivity.
Qed.

Lemma react_other_keys k e cfg :
  k <> waf_token -> getItem k (react e cfg).1 = getItem k cfg.1.
Proof.
  intros Hk. destruct cfg as [ls st]. destruct e as [|[tk|d]|]; simpl; try reflexivity.
  - unfold getItem, setItem. apply lookup_insert_ne. congruence.
  - unfold getItem, removeItem. apply lookup_delete_ne. congruence.
Qed.

(** X6.  The provider uses one key of [localStorage] only: whatever happens
    during a visit, every other key keeps the value it had. *)
Theorem visit_touches_one_key (k : string) (events : list Event) (ls : Storage) :
  k <> waf_token -> getItem k (visit events ls).1 = getItem k ls.
Proof.
  intros Hk. induction events as [|e events IH] using rev_ind; [reflexivity|].
  rewrite visit_snoc, react_other_keys by exact Hk. exact IH.
Qed.

Lemma visit_touches_one_key_witness :
  getItem "theme"
    (visit [Mount; LoginAttempt (LoginOk "t0"); Logout] {["theme" := "dark"]}).1
  = Some "dark".
Proof.
  rewrite (visit_touches_one_key "theme"
             [Mount; LoginAttempt (LoginOk "t0"); Logout] {["theme" := "dark"]}).
  - reflexivity.
  - intros E. discriminate E.
Defined.

End VisitFacts.

(** ** The cards of the dashboard *)

Section CardFacts.
Import Js Dashboard.


Lemma or_zero_keeps_guard (v : value) :
  num_gt (to_number (or_zero v)) zero = num_gt (to_number v) zero.
Proof.
  unfold or_zero. destruct v as [| |x]; simpl; try reflexivity.
  destruct x as [s|s| |s m e]; reflexivity.
Qed.


(** X8.  The block rate and the "Total Requests" card agree: computing the
    rate never raises, it is the plain number [0] exactly when the card
    shows a value that is not above zero, and it is a formatted text exactly
    when the card shows a number above zero. *)
Theorem blockRate_agrees_with_total_card (stats : option Stats) :
  exists r v,
    blockRate stats = Some r /\
    statCards stats !! 2%nat = Some ("Total Requests", v) /\
    (r = RateNumber zero <-> num_gt (to_number v) zero = false) /\
    ((exists t, r = RateText t) <-> num_gt (to_number v) zero = true).
Proof.
  destruct (num_gt (to_number (opt_get total_requests stats)) zero) eqn:G.
  - destruct (guard_needs_number stats G) as (s & t & -> & Ht & _).
    eexists _, _. split.
    { unfold blockRate. rewrite G. simpl. reflexivity. }
    split; [reflexivity|].
    rewrite or_zero_keeps_guard, G. split; split; try done; eauto.
  - eexists _, _. split.
    { unfold blockRate. rewrite G. reflexivity. }
    split; [reflexivity|].
    rewrite or_zero_keeps_guard, G. split; split; try done.
    intros [t Ht]. discriminate Ht.
Qed.

Lemma zero_div_positive (t : number) :
  num_gt t zero = true -> num_div zero t = zero.
Proof.
  intros H. destruct (num_gt_zero_positive t H) as [->|(m & e & ->)]; reflexivity.
Qed.

(** X9.  With a total above zero, a response that lacks [blocked_requests]
    is shown as ["NaN"] (the division has [undefined] as numerator), while a
    [null] one is shown as ["0.00"]. *)
Theorem blockRate_without_blocked (s : Stats) (t : number) :
  total_requests s = Num t ->
  num_gt t zero = true ->
  (blocked_requests s = Undefined -> blockRate (Some s) = Some (RateText (Text "NaN"))) /\
  (blocked_requests s = Null -> blockRate (Some s) = Some (RateText (Text "0.00"))).
Proof.
  intros Ht G. unfold blockRate. simpl. rewrite Ht. simpl. rewrite G.
  split; intros ->; simpl.
  - reflexivity.
  - rewrite zero_div_positive by exact G. reflexivity.
Qed.

Lemma blockRate_without_blocked_witness :
  blockRate (Some {| total_domains := Undefined; active_domains := Undefined;
                     total_requests := Num hundred; blocked_requests := Undefined;
                     recent_attacks := Undefined; top_attack_types := None |})
  = Some (RateText (Text "NaN")).
Proof.
  apply (blockRate_without_blocked _ hundred); reflexivity.
Defined.

End CardFacts.

(** ** The log view *)

Section LogsViewFacts.
Import SecurityLogs LogsView.

Lemma lower_ascii_idem (c : ascii) : Js.lower_ascii (Js.lower_ascii c) = Js.lower_ascii c.
Proof. destruct c as [[] [] [] [] [] [] [] []]; reflexivity. Qed.

Lemma toLowerCase_idem (s : string) : Js.toLowerCase (Js.toLowerCase s) = Js.toLowerCase s.
Proof.
  induction s as [|c r IH]; [reflexivity|].
  cbn [Js.toLowerCase]. rewrite lower_ascii_idem, IH. reflexivity.
Qed.

(** X10.  The badge colour depends on the reason up to letter case only,
    and a reason has a colour other than the default gray exactly when,
    in lower case, it is one of the seven labels [colouredReasons]: every
    other reason, ["Rate Limit Exceeded"] and ["XSS"] among them, falls to
    the default. *)
Theorem getReasonColor_coloured_iff (reason : string) :
  is_ascii reason = true ->
  getReasonColor (Js.toLowerCase reason) = getReasonColor reason /\
  (getReasonColor reason <> defaultColor <->
     In (Js.toLowerCase reason) colouredReasons).
Proof.
  intros _. split.
  - unfold getReasonColor. rewrite toLowerCase_idem. reflexivity.
  - unfold getReasonColor, colouredReasons, defaultColor.
    set (r := Js.toLowerCase reason). cbn [In].
    repeat match goal with
    | |- context [String.eqb r ?l] =>
        destruct (String.eqb_spec r l) as [->|?];
        [split; [intros _; tauto | intros _; discriminate]|]
    end.
    destruct (String.eqb r "suspicious user agent").
    all: split; [intros H; exfalso; apply H; reflexivity|].
    all: intros H; exfalso.
    all: repeat (destruct H as [H|H]; [congruence|]).
    all: exact H.
Qed.

Lemma getReasonColor_coloured_iff_witness :
  getReasonColor "RATE LIMIT exceeded" = getReasonColor "Rate Limit Exceeded" /\
  getReasonColor "sql injection" = getReasonColor "SQL Injection".
Proof.
  split.
  - rewrite <- (proj1 (getReasonColor_coloured_iff "RATE LIMIT exceeded" eq_refl)).
    rewrite <- (proj1 (getReasonColor_coloured_iff "Rate Limit Exceeded" eq_refl)).
    reflexivity.
  - exact (proj1 (getReasonColor_coloured_iff "SQL Injection" eq_refl)).
Defined.

(** X11.  Every reason the filter offers is spelled as one of the [case]
    labels of [getReasonColor] up to letter case, and the badge colours
    tell the offered reasons apart: two different options have different
    colours unless both have the default gray, which among the options only
    "All reasons" and "Suspicious User Agent" have. *)
Theorem offered_reasons_have_own_colours (o1 o2 : string) :
  In o1 filterReasonOptions -> In o2 filterReasonOptions ->
  (o1 = "" \/ In (Js.toLowerCase o1) (colouredReasons ++ ["suspicious user agent"])) /\
  (getReasonColor o1 = defaultColor <-> o1 = "" \/ o1 = "Suspicious User Agent") /\
  (getReasonColor o1 = getReasonColor o2 ->
     o1 = o2 \/ (getReasonColor o1 = defaultColor /\ getReasonColor o2 = defaultColor)).
Proof.
  unfold filterReasonOptions. cbn [In]. intros H1 H2.
  repeat (destruct H1 as [<-|H1]); try (exfalso; exact H1);
    (split; [vm_compute; tauto|]);
    (split; [split; [intros E; first [left; reflexivity | right; reflexivity | discriminate E]
                    | intros [E|E]; first [reflexivity | discriminate E]]|]);
    repeat (destruct H2 as [<-|H2]); try (exfalso; exact H2);
    intros E; first [left; reflexivity | right; split; reflexivity | discriminate E].
Qed.

Lemma offered_reasons_have_own_colours_witness :
  getReasonColor "Suspicious User Agent" = defaultColor <->
  "Suspicious User Agent" = "" \/ "Suspicious User Agent" = "Suspicious User Agent".
Proof.
  apply (offered_reasons_have_own_colours "Suspicious User Agent" "Path Traversal");
    unfold filterReasonOptions; cbn [In]; tauto.
Defined.

End LogsViewFacts.

(** ** The URL of the log request *)

Section LogsUrlFacts.
Import SecurityLogs LogsView URLSearchParams.

Lemma occurrences_app (c : ascii) (s1 s2 : string) :
  occurrences c (s1 +:+ s2) = (occurrences c s1 + occurrences c s2)%nat.
Proof.
  induction s1 as [|d r IH]; [reflexivity|].
  simpl. rewrite IH. lia.
Qed.

Lemma all_chars_app (p : ascii -> bool) (s1 s2 : string) :
  all_chars p (s1 +:+ s2) = all_chars p s1 && all_chars p s2.
Proof.
  induction s1 as [|d r IH]; [reflexivity|].
  simpl. rewrite IH, andb_assoc. reflexivity.
Qed.

Lemma all_chars_occurrences (p : ascii -> bool) (x : ascii) (s : string) :
  all_chars p s = true -> p x = false -> occurrences x s = 0%nat.
Proof.
  intros Hs Hx. induction s as [|d r IH]; [reflexivity|].
  simpl in Hs. apply andb_true_iff in Hs as [Hd Hr]. simpl.
  rewrite IH by exact Hr. destruct (Ascii.eqb_spec x d) as [->|_]; [congruence|reflexivity].
Qed.

Lemma encode_byte_emitted (c : ascii) : all_chars emitted (encode_byte c) = true.
Proof. destruct c as [[] [] [] [] [] [] [] []]; reflexivity. Qed.

Lemma encode_emitted (s : string) : all_chars emitted (encode s) = true.
Proof.
  induction s as [|c r IH]; [reflexivity|].
  cbn [encode]. rewrite all_chars_app, encode_byte_emitted, IH. reflexivity.
Qed.

Lemma encode_no_separator (x : ascii) (s : string) :
  emitted x = false -> occurrences x (encode s) = 0%nat.
Proof. intros Hx. exact (all_chars_occurrences emitted x _ (encode_emitted s) Hx). Qed.

Lemma toString_separators (params : list (string * string)) :
  occurrences "=" (toString params) = length params /\
  occurrences "&" (toString params) = pred (length params) /\
  occurrences "?" (toString params) = 0%nat /\
  occurrences "#" (toString params) = 0%nat.
Proof.
  induction params as [|[k v] rest IH]; [repeat split|].
  destruct IH as (IH1 & IH2 & IH3 & IH4).
  destruct rest as [|p rest].
  - cbn [toString]. rewrite !occurrences_app, !encode_no_separator by reflexivity.
    repeat split.
  - change (toString ((k, v) :: p :: rest))
      with (encode k +:+ "=" +:+ encode v +:+ "&" +:+ toString (p :: rest)).
    rewrite !occurrences_app, !encode_no_separator by reflexivity.
    rewrite IH1, IH2, IH3, IH4. cbn [length pred occurrences Ascii.eqb].
    repeat split; simpl; lia.
Qed.

(** X12.  The URL of the log request has exactly one [=] per parameter
    sent, one [&] between two parameters, a single [?] and no [#], whatever
    is typed into the search box: nothing the visitor types or selects can
    add a parameter to the request or cut it short.  A parameter is sent for
    each of the two filters that is not empty. *)
Theorem logsUrl_separators (searchTerm filterReason : string) :
  length (logsQueryParams searchTerm filterReason) =
    ((if String.eqb searchTerm "" then 0 else 1) +
     (if String.eqb filterReason "" then 0 else 1))%nat /\
  occurrences "=" (logsUrl searchTerm filterReason) =
    length (logsQueryParams searchTerm filterReason) /\
  occurrences "&" (logsUrl searchTerm filterReason) =
    pred (length (logsQueryParams searchTerm filterReason)) /\
  occurrences "?" (logsUrl searchTerm filterReason) = 1%nat /\
  occurrences "#" (logsUrl searchTerm filterReason) = 0%nat.
Proof.
  split.
  - unfold logsQueryParams, Js.str_truthy. rewrite length_app.
    destruct (String.eqb searchTerm ""), (String.eqb filterReason ""); reflexivity.
  - unfold logsUrl. rewrite !occurrences_app.
    destruct (toString_separators (logsQueryParams searchTerm filterReason))
      as (-> & -> & -> & ->).
    repeat split.
Qed.

End LogsUrlFacts.

(** ** The domain form *)

Section DomainFormFacts.
Import DomainManagement.

Lemma initialFormData_lookup (domain : option Object) (i : Input) :
  initialFormData domain !! input_name i =
    Some (match i with
          | IsActiveCheckbox => coalesce (prop "is_active" domain) (JBool true)
          | _ => or (prop (input_name i) domain) (input_default i)
          end).
Proof. destruct i; reflexivity. Qed.

Lemma initialFormData_dom (domain : option Object) :
  dom (initialFormData domain) =
    list_to_set (map input_name
      [DomainNameInput; TargetUrlInput; SecurityLevelSelect; RateLimitInput;
       IsActiveCheckbox]).
Proof.
  unfold initialFormData. rewrite !dom_insert_L, dom_empty_L. simpl. set_solver.
Qed.

(** X13.  Opening the form on a row shows, for each input, the field of the
    row when it is truthy and the default otherwise (empty text,
    ["moderate"], [1000]); the check box alone keeps a [false]: it falls
    back to [true] only when [is_active] is missing or null.  The "Add"
    form, opened on no row, shows the five defaults. *)
Theorem form_opens_on_row (domain : option Object) (i : Input) :
  initialFormData domain !! input_name i =
    Some (if kept i (prop (input_name i) domain)
          then prop (input_name i) domain
          else input_default i) /\
  initialFormData None !! input_name i = Some (input_default i) /\
  dom (initialFormData domain) =
    list_to_set (map input_name
      [DomainNameInput; TargetUrlInput; SecurityLevelSelect; RateLimitInput;
       IsActiveCheckbox]).
Proof.
  split; [|split].
  - rewrite initialFormData_lookup. destruct i; try reflexivity.
    simpl. destruct (prop "is_active" domain); reflexivity.
  - destruct i; reflexivity.
  - apply initialFormData_dom.
Qed.

Lemma input_name_inj (i j : Input) : input_name i = input_name j -> i = j.
Proof. destruct i, j; intros E; first [reflexivity | discriminate E]. Qed.

Lemma handleChange_change (i : Input) (v : string) (c : bool) (fd : Object) :
  handleChange (change i v c) fd = <[input_name i := entered i v c]> fd.
Proof. destruct i; reflexivity. Qed.

Lemma edit_snoc changes c fd :
  edit (changes ++ [c]) fd = handleChange (change c.1.1 c.1.2 c.2) (edit changes fd).
Proof. unfold edit. rewrite foldl_app. reflexivity. Qed.

Lemma last_change_snoc (i : Input) changes (c : Input * string * bool) :
  last_change i (changes ++ [c]) =
    if decide (c.1.1 = i) then Some (c.1.2, c.2) else last_change i changes.
Proof.
  induction changes as [|d rest IH]; simpl.
  - destruct (decide (c.1.1 = i)); reflexivity.
  - rewrite IH. destruct (decide (c.1.1 = i)); reflexivity.
Qed.

(** X14.  After any series of changes the form holds, for each input, what
    the last change of that input entered (the text of the element, or the
    state of the check box) and, for an input that was never changed, what
    it held before; no field is added or dropped, so the object submitted
    has the fields the form was opened with. *)
Theorem edit_last_change_wins (changes : list (Input * string * bool))
  (formData : Object) (domain : option Object) (i : Input) :
  edit changes formData !! input_name i =
    match last_change i changes with
    | Some (v, c) => Some (entered i v c)
    | None => formData !! input_name i
    end /\
  dom (edit changes (initialFormData domain)) = dom (initialFormData domain).
Proof.
  split.
  - induction changes as [|c changes IH] using rev_ind; [reflexivity|].
    rewrite edit_snoc, last_change_snoc, handleChange_change.
    destruct (decide (c.1.1 = i)) as [<-|Hne].
    + rewrite lookup_insert_eq. reflexivity.
    + rewrite lookup_insert_ne; [exact IH|].
      intros E. apply Hne, input_name_inj, E.
  - induction changes as [|c changes IH] using rev_ind; [reflexivity|].
    rewrite edit_snoc, handleChange_change, dom_insert_L, IH.
    rewrite initialFormData_dom.
    destruct c as [[[] v] b]; simpl; set_solver.
Qed.

End DomainFormFacts.
